(** * A shallow embedding of the Convex Stripe component (src/src/component)

    The component stores the provider's objects in Convex tables
    (schema.ts) and exposes queries, mutations and one action
    (public.ts).  A Convex document is the user-visible record of its
    table together with the two system fields [_id] and [_creationTime];
    a table is the list of its documents in creation order, which is the
    order in which a full scan or an equality range of an index returns
    them.  Optional fields ([v.optional]) are [option]; [v.number()] is
    modelled as [Z]; [v.any()] as the JSON-like values [json]. *)

From Stdlib Require Import String List ZArith Bool Lia.
Import ListNotations.
Open Scope string_scope.
Set Warnings "-register-all".

(** ** Values *)

(** The values a field declared [v.any()] can hold. *)
Inductive json : Type :=
| JNull
| JBool (b : bool)
| JNumber (n : Z)
| JString (s : string)
| JArray (xs : list json)
| JObject (kvs : list (string * json)).

(** Errors thrown by the code: [throw new Error(msg)]. *)
Inductive result (A : Type) : Type :=
| Ok (a : A)
| Err (msg : string).
Arguments Ok {A} a.
Arguments Err {A} msg.

Definition is_err {A} (r : result A) : bool :=
  match r with Ok _ => false | Err _ => true end.

(** [q.eq(field, value)] on an optional field matches the documents whose
    field is present and equal to the value. *)
Definition opt_str_eqb (o : option string) (s : string) : bool :=
  match o with Some s' => String.eqb s' s | None => false end.

(** ** The tables of schema.ts *)

Module Product.
Record t := mk {
  stripeProductId : string;
  name : string;
  description : option string;
  active : bool;
  type : option string;
  defaultPriceId : option string;
  metadata : option json;
  images : option (list string) }.
End Product.

Module Tier.
Record t := mk {
  upTo : option Z;          (* null means infinity (last tier) *)
  flatAmount : option Z;
  unitAmount : option Z }.
End Tier.

Module Price.
Record t := mk {
  stripePriceId : string;
  stripeProductId : string;
  active : bool;
  currency : string;
  type : string;
  unitAmount : option Z;
  description : option string;
  lookupKey : option string;
  recurringInterval : option string;
  recurringIntervalCount : option Z;
  trialPeriodDays : option Z;
  usageType : option string;
  billingScheme : option string;
  tiersMode : option string;
  tiers : option (list Tier.t);
  metadata : option json }.
End Price.

Module Customer.
Record t := mk {
  stripeCustomerId : string;
  email : option string;
  name : option string;
  metadata : option json }.
End Customer.

Module Subscription.
Record t := mk {
  stripeSubscriptionId : string;
  stripeCustomerId : string;
  status : string;
  currentPeriodEnd : Z;
  cancelAtPeriodEnd : bool;
  cancelAt : option Z;
  quantity : option Z;
  priceId : string;
  metadata : option json;
  orgId : option string;
  userId : option string }.
End Subscription.

Module CheckoutSession.
Record t := mk {
  stripeCheckoutSessionId : string;
  stripeCustomerId : option string;
  status : string;
  mode : string;
  metadata : option json }.
End CheckoutSession.

Module Payment.
Record t := mk {
  stripePaymentIntentId : string;
  stripeCustomerId : option string;
  amount : Z;
  currency : string;
  status : string;
  created : Z;
  metadata : option json;
  orgId : option string;
  userId : option string }.
End Payment.

Module Invoice.
Record t := mk {
  stripeInvoiceId : string;
  stripeCustomerId : string;
  stripeSubscriptionId : option string;
  status : string;
  amountDue : Z;
  amountPaid : Z;
  created : Z;
  orgId : option string;
  userId : option string }.
End Invoice.

(** ** Documents and the database *)

(** A stored document: the system fields and the table's fields. *)
Record doc (A : Type) := mkDoc {
  _id : nat;
  _creationTime : Z;
  fields : A }.
Arguments mkDoc {A} _ _ _.
Arguments _id {A} _.
Arguments _creationTime {A} _.
Arguments fields {A} _.

(** [const { _id, _creationTime, ...data } = d; return data;] *)
Definition strip {A} (d : doc A) : A := fields d.

Record db := mkDb {
  products : list (doc Product.t);
  prices : list (doc Price.t);
  customers : list (doc Customer.t);
  subscriptions : list (doc Subscription.t);
  checkout_sessions : list (doc CheckoutSession.t);
  payments : list (doc Payment.t);
  invoices : list (doc Invoice.t);
  next_id : nat }.

(** ** The database reads used by the queries *)

(** [.withIndex(ix, q => q.eq(f, v))]: the documents of the range, in
    creation order. *)
Definition withIndex {A} (matches : A -> bool) (tbl : list (doc A))
  : list (doc A) :=
  filter (fun d => matches (fields d)) tbl.

(** [.unique()]: [null] for no result, the document for one, and an
    error when the query returns more than one document. *)
Definition unique {A} (ds : list (doc A)) : result (option (doc A)) :=
  match ds with
  | [] => Ok None
  | [d] => Ok (Some d)
  | _ :: _ :: _ => Err "unique() query returned more than one result"
  end.

(** [.first()] *)
Definition first {A} (ds : list (doc A)) : option (doc A) := hd_error ds.

(** [if (!x) return null; const { _id, _creationTime, ...data } = x;
    return data;] *)
Definition lookup_stripped {A} (ds : list (doc A)) : result (option A) :=
  match unique ds with
  | Ok None => Ok None
  | Ok (Some d) => Ok (Some (strip d))
  | Err e => Err e
  end.

(** [xs.map(({ _id, _creationTime, ...data }) => data)] *)
Definition map_stripped {A} (ds : list (doc A)) : list A := map strip ds.

(** ** The queries of public.ts *)

Definition getProduct (s : db) (stripeProductId : string)
  : result (option Product.t) :=
  lookup_stripped
    (withIndex (fun p => String.eqb (Product.stripeProductId p) stripeProductId)
       (products s)).

Definition listProducts (s : db) : list Product.t :=
  map_stripped (products s).

Definition listActiveProducts (s : db) : list Product.t :=
  map_stripped
    (withIndex (fun p => Bool.eqb (Product.active p) true) (products s)).

Definition getPrice (s : db) (stripePriceId : string)
  : result (option Price.t) :=
  lookup_stripped
    (withIndex (fun p => String.eqb (Price.stripePriceId p) stripePriceId)
       (prices s)).

Definition listPrices (s : db) : list Price.t :=
  map_stripped (prices s).

Definition listActivePrices (s : db) : list Price.t :=
  map_stripped
    (withIndex (fun p => Bool.eqb (Price.active p) true) (prices s)).

Definition listPricesByProduct (s : db) (stripeProductId : string)
  : list Price.t :=
  map_stripped
    (withIndex (fun p => String.eqb (Price.stripeProductId p) stripeProductId)
       (prices s)).

Definition listActivePricesByProduct (s : db) (stripeProductId : string)
  : list Price.t :=
  let ps := withIndex
              (fun p => String.eqb (Price.stripeProductId p) stripeProductId)
              (prices s) in
  map_stripped (filter (fun d => Price.active (fields d)) ps).

Definition getPriceByLookupKey (s : db) (lookupKey : string)
  : result (option Price.t) :=
  lookup_stripped
    (withIndex (fun p => opt_str_eqb (Price.lookupKey p) lookupKey) (prices s)).

Record ProductWithPrices := mkProductWithPrices {
  pwp_product : Product.t;
  pwp_prices : list Price.t }.

Definition getProductWithPrices (s : db) (stripeProductId : string)
  : result (option ProductWithPrices) :=
  match unique
          (withIndex
             (fun p => String.eqb (Product.stripeProductId p) stripeProductId)
             (products s)) with
  | Err e => Err e
  | Ok None => Ok None
  | Ok (Some product) =>
      let ps := withIndex
                  (fun p => String.eqb (Price.stripeProductId p) stripeProductId)
                  (prices s) in
      Ok (Some (mkProductWithPrices (strip product) (map_stripped ps)))
  end.

Definition getCustomer (s : db) (stripeCustomerId : string)
  : result (option Customer.t) :=
  lookup_stripped
    (withIndex
       (fun c => String.eqb (Customer.stripeCustomerId c) stripeCustomerId)
       (customers s)).

Definition getSubscription (s : db) (stripeSubscriptionId : string)
  : result (option Subscription.t) :=
  lookup_stripped
    (withIndex
       (fun x => String.eqb (Subscription.stripeSubscriptionId x)
                   stripeSubscriptionId)
       (subscriptions s)).

Definition listSubscriptions (s : db) (stripeCustomerId : string)
  : list Subscription.t :=
  map_stripped
    (withIndex
       (fun x => String.eqb (Subscription.stripeCustomerId x) stripeCustomerId)
       (subscriptions s)).

Definition getSubscriptionByOrgId (s : db) (orgId : string)
  : option Subscription.t :=
  match first (withIndex (fun x => opt_str_eqb (Subscription.orgId x) orgId)
                 (subscriptions s)) with
  | None => None
  | Some d => Some (strip d)
  end.

Definition listSubscriptionsByUserId (s : db) (userId : string)
  : list Subscription.t :=
  map_stripped
    (withIndex (fun x => opt_str_eqb (Subscription.userId x) userId)
       (subscriptions s)).

Definition getPayment (s : db) (stripePaymentIntentId : string)
  : result (option Payment.t) :=
  lookup_stripped
    (withIndex
       (fun x => String.eqb (Payment.stripePaymentIntentId x)
                   stripePaymentIntentId)
       (payments s)).

Definition listPayments (s : db) (stripeCustomerId : string)
  : list Payment.t :=
  map_stripped
    (withIndex (fun x => opt_str_eqb (Payment.stripeCustomerId x)
                           stripeCustomerId)
       (payments s)).

Definition listPaymentsByUserId (s : db) (userId : string) : list Payment.t :=
  map_stripped
    (withIndex (fun x => opt_str_eqb (Payment.userId x) userId) (payments s)).

Definition listPaymentsByOrgId (s : db) (orgId : string) : list Payment.t :=
  map_stripped
    (withIndex (fun x => opt_str_eqb (Payment.orgId x) orgId) (payments s)).

Definition listInvoices (s : db) (stripeCustomerId : string)
  : list Invoice.t :=
  map_stripped
    (withIndex (fun x => String.eqb (Invoice.stripeCustomerId x)
                           stripeCustomerId)
       (invoices s)).

Definition listInvoicesByOrgId (s : db) (orgId : string) : list Invoice.t :=
  map_stripped
    (withIndex (fun x => opt_str_eqb (Invoice.orgId x) orgId) (invoices s)).

Definition listInvoicesByUserId (s : db) (userId : string) : list Invoice.t :=
  map_stripped
    (withIndex (fun x => opt_str_eqb (Invoice.userId x) userId) (invoices s)).

(** ** Mutations *)

(** A mutation handler reads and writes the database and may throw.
    Convex runs it as one transaction: when it throws, none of its writes
    is committed ([runMutation]). *)
Definition M (A : Type) : Type := db -> result (A * db).

Definition ret {A} (a : A) : M A := fun s => Ok (a, s).
Definition bind {A B} (m : M A) (k : A -> M B) : M B :=
  fun s => match m s with
           | Ok (a, s') => k a s'
           | Err e => Err e
           end.
Definition throw {A} (msg : string) : M A := fun _ => Err msg.
Definition read {A} (f : db -> A) : M A := fun s => Ok (f s, s).
Definition lift_result {A} (r : result A) : M A :=
  fun s => match r with Ok a => Ok (a, s) | Err e => Err e end.

Notation "x <- m ;; k" := (bind m (fun x => k))
  (at level 61, m at next level, right associativity).
Notation "m ;;; k" := (bind m (fun _ => k))
  (at level 61, right associativity).

Definition runMutation {A} (m : M A) (s : db) : result A * db :=
  match m s with
  | Ok (a, s') => (Ok a, s')
  | Err e => (Err e, s)
  end.

(** [ctx.db.patch(id, value)] on the documents of one table: the keys of
    the patch object that are absent keep the field, a key whose value is
    [undefined] removes the field, any other value replaces it.  A patch
    object is therefore, field by field, [None] (key absent) or [Some v]
    with [v] the new value ([None] for [undefined] on an optional
    field).  Patching an id not in the table throws. *)
Definition patch_field {T} (p : option T) (old : T) : T :=
  match p with Some v => v | None => old end.

Definition patch_table {A} (id : nat) (f : A -> A) (tbl : list (doc A))
  : result (list (doc A)) :=
  if existsb (fun d => Nat.eqb (_id d) id) tbl
  then Ok (map (fun d => if Nat.eqb (_id d) id
                         then mkDoc (_id d) (_creationTime d) (f (fields d))
                         else d) tbl)
  else Err "Update on nonexistent document ID".

(** [ctx.db.insert(table, value)]: a fresh id, the creation time, and the
    document appended in creation order. *)
Definition new_doc {A} (s : db) (a : A) : doc A :=
  mkDoc (next_id s) (Z.of_nat (next_id s)) a.

Module CustomerPatch.
Record t := mk {
  stripeCustomerId : option string;
  email : option (option string);
  name : option (option string);
  metadata : option (option json) }.
Definition apply (p : t) (c : Customer.t) : Customer.t :=
  Customer.mk
    (patch_field (stripeCustomerId p) (Customer.stripeCustomerId c))
    (patch_field (email p) (Customer.email c))
    (patch_field (name p) (Customer.name c))
    (patch_field (metadata p) (Customer.metadata c)).
End CustomerPatch.

Module SubscriptionPatch.
Record t := mk {
  stripeSubscriptionId : option string;
  stripeCustomerId : option string;
  status : option string;
  currentPeriodEnd : option Z;
  cancelAtPeriodEnd : option bool;
  cancelAt : option (option Z);
  quantity : option (option Z);
  priceId : option string;
  metadata : option (option json);
  orgId : option (option string);
  userId : option (option string) }.
Definition apply (p : t) (x : Subscription.t) : Subscription.t :=
  Subscription.mk
    (patch_field (stripeSubscriptionId p) (Subscription.stripeSubscriptionId x))
    (patch_field (stripeCustomerId p) (Subscription.stripeCustomerId x))
    (patch_field (status p) (Subscription.status x))
    (patch_field (currentPeriodEnd p) (Subscription.currentPeriodEnd x))
    (patch_field (cancelAtPeriodEnd p) (Subscription.cancelAtPeriodEnd x))
    (patch_field (cancelAt p) (Subscription.cancelAt x))
    (patch_field (quantity p) (Subscription.quantity x))
    (patch_field (priceId p) (Subscription.priceId x))
    (patch_field (metadata p) (Subscription.metadata x))
    (patch_field (orgId p) (Subscription.orgId x))
    (patch_field (userId p) (Subscription.userId x)).
End SubscriptionPatch.

Definition set_customers (s : db) (cs : list (doc Customer.t)) : db :=
  mkDb (products s) (prices s) cs (subscriptions s) (checkout_sessions s)
    (payments s) (invoices s) (next_id s).

Definition set_subscriptions (s : db) (xs : list (doc Subscription.t)) : db :=
  mkDb (products s) (prices s) (customers s) xs (checkout_sessions s)
    (payments s) (invoices s) (next_id s).

Definition set_products (s : db) (ps : list (doc Product.t)) : db :=
  mkDb ps (prices s) (customers s) (subscriptions s) (checkout_sessions s)
    (payments s) (invoices s) (next_id s).

Definition patch_customer (id : nat) (p : CustomerPatch.t) : M unit :=
  fun s => match patch_table id (CustomerPatch.apply p) (customers s) with
           | Ok cs => Ok (tt, set_customers s cs)
           | Err e => Err e
           end.

Definition insert_customer (c : Customer.t) : M nat :=
  fun s => Ok (next_id s,
               mkDb (products s) (prices s) (customers s ++ [new_doc s c])
                 (subscriptions s) (checkout_sessions s) (payments s)
                 (invoices s) (S (next_id s))).

Definition patch_subscription (id : nat) (p : SubscriptionPatch.t) : M unit :=
  fun s => match patch_table id (SubscriptionPatch.apply p) (subscriptions s) with
           | Ok xs => Ok (tt, set_subscriptions s xs)
           | Err e => Err e
           end.

(** A read inside a mutation: [await ctx.db.query(...)...unique()]. *)
Definition query {A} (f : db -> result A) : M A :=
  fun s => match f s with Ok a => Ok (a, s) | Err e => Err e end.

(** [createOrUpdateCustomer] *)
Definition createOrUpdateCustomer (stripeCustomerId : string)
  (email name : option string) (metadata : option json) : M string :=
  existing <- query (fun s =>
                unique (withIndex
                          (fun c => String.eqb (Customer.stripeCustomerId c)
                                      stripeCustomerId)
                          (customers s))) ;;
  match existing with
  | Some d =>
      patch_customer (_id d)
        (CustomerPatch.mk None (Some email) (Some name) (Some metadata))
  | None =>
      _ <- insert_customer (Customer.mk stripeCustomerId email name metadata) ;;
      ret tt
  end ;;;
  ret stripeCustomerId.

(** [updateSubscriptionMetadata]; [null] is [tt]. *)
Definition updateSubscriptionMetadata (stripeSubscriptionId : string)
  (metadata : json) (orgId userId : option string) : M unit :=
  subscription <- query (fun s =>
                    unique (withIndex
                              (fun x => String.eqb
                                          (Subscription.stripeSubscriptionId x)
                                          stripeSubscriptionId)
                              (subscriptions s))) ;;
  match subscription with
  | None =>
      throw ("Subscription " ++ stripeSubscriptionId ++ " not found in database")
  | Some d =>
      patch_subscription (_id d)
        (SubscriptionPatch.mk None None None None None None None None
           (Some (Some metadata)) (Some orgId) (Some userId)) ;;;
      ret tt
  end.

(** ** The action [updateSubscriptionQuantity] *)

(** The part of the Stripe SDK the action calls: an object
    [subscription] with its [items.data], and the two remote calls, each
    made with the API key the client was built with.  The remote account
    is a state of type [R]. *)
Module Stripe.
Record SubscriptionItem := mkItem { id : string }.
Record Subscription := mkSubscription {
  sub_id : string;
  items_data : list SubscriptionItem }.
Record Api (R : Type) := mkApi {
  subscriptions_retrieve : string -> R -> string -> result Subscription;
  subscriptionItems_update : string -> R -> string -> Z -> result R }.
Arguments subscriptions_retrieve {R} _ _ _ _.
Arguments subscriptionItems_update {R} _ _ _ _ _.
End Stripe.

(** The calls the action issues, in the order it issues them. *)
Inductive effect : Type :=
| RemoteRetrieve (stripeSubscriptionId : string)
| RemoteItemUpdate (itemId : string) (quantity : Z)
| LocalMutation (stripeSubscriptionId : string) (quantity : Z)
| RemoteCheckoutSessionCreate (priceId : string).

Section Action.
Context {R : Type}.

Record world := mkWorld {
  STRIPE_SECRET_KEY : option string;   (* process.env.STRIPE_SECRET_KEY *)
  remote : R;
  local : db;
  log : list effect }.

(** An action is not a transaction: it runs until it throws, and what it
    did before stays done. *)
Definition Act (A : Type) : Type := world -> result A * world.

Definition aret {A} (a : A) : Act A := fun w => (Ok a, w).
Definition abind {A B} (m : Act A) (k : A -> Act B) : Act B :=
  fun w => match m w with
           | (Ok a, w') => k a w'
           | (Err e, w') => (Err e, w')
           end.
Definition athrow {A} (msg : string) : Act A := fun w => (Err msg, w).

Notation "x <-- m ;; k" := (abind m (fun x => k))
  (at level 61, m at next level, right associativity).

Definition emit (e : effect) : Act unit :=
  fun w => (Ok tt, mkWorld (STRIPE_SECRET_KEY w) (remote w) (local w)
                     (log w ++ [e])).

Definition getEnv : Act (option string) :=
  fun w => (Ok (STRIPE_SECRET_KEY w), w).

(** [await stripe.subscriptions.retrieve(id)] *)
Definition retrieve (api : Stripe.Api R) (key : string) (sid : string)
  : Act Stripe.Subscription :=
  fun w => (Stripe.subscriptions_retrieve api key (remote w) sid, w).

(** [await stripe.subscriptionItems.update(itemId, { quantity })] *)
Definition updateItem (api : Stripe.Api R) (key : string) (itemId : string)
  (q : Z) : Act unit :=
  fun w => match Stripe.subscriptionItems_update api key (remote w) itemId q with
           | Ok r' => (Ok tt, mkWorld (STRIPE_SECRET_KEY w) r' (local w) (log w))
           | Err e => (Err e, w)
           end.

(** [await ctx.runMutation(m)]: the mutation runs as a transaction. *)
Definition runMut {A} (m : M A) : Act A :=
  fun w => let '(r, s') := runMutation m (local w) in
           (r, mkWorld (STRIPE_SECRET_KEY w) (remote w) s' (log w)).

(** [if (!apiKey)]: an unset or empty variable. *)
Definition missing_key (k : option string) : bool :=
  match k with None => true | Some k => String.eqb k "" end.

Variable api : Stripe.Api R.
(** [api.private.updateSubscriptionQuantityInternal]: the local write. Its
    code is not part of public.ts; the action only runs it. *)
Variable updateSubscriptionQuantityInternal : string -> Z -> M unit.

Definition updateSubscriptionQuantity (stripeSubscriptionId : string)
  (quantity : Z) : Act unit :=
  apiKey <-- getEnv ;;
  match apiKey with
  | Some k =>
      if String.eqb k "" then
        athrow "STRIPE_SECRET_KEY must be provided as an environment variable"
      else
        _ <-- emit (RemoteRetrieve stripeSubscriptionId) ;;
        subscription <-- retrieve api k stripeSubscriptionId ;;
        match Stripe.items_data subscription with
        | [] => athrow "Subscription has no items"
        | item :: _ =>
            _ <-- emit (RemoteItemUpdate (Stripe.id item) quantity) ;;
            _ <-- updateItem api k (Stripe.id item) quantity ;;
            _ <-- emit (LocalMutation stripeSubscriptionId quantity) ;;
            _ <-- runMut (updateSubscriptionQuantityInternal
                            stripeSubscriptionId quantity) ;;
            aret tt
        end
  | None =>
      athrow "STRIPE_SECRET_KEY must be provided as an environment variable"
  end.

(** One of the steps before the local write fails. *)
Definition remote_step_fails (key : option string) (r0 : R)
  (sid : string) (q : Z) : Prop :=
  key = None \/ key = Some "" \/
  (exists k e, key = Some k /\ k <> "" /\
     Stripe.subscriptions_retrieve api k r0 sid = Err e) \/
  (exists k sub, key = Some k /\ k <> "" /\
     Stripe.subscriptions_retrieve api k r0 sid = Ok sub /\
     Stripe.items_data sub = []) \/
  (exists k sub item rest e, key = Some k /\ k <> "" /\
     Stripe.subscriptions_retrieve api k r0 sid = Ok sub /\
     Stripe.items_data sub = item :: rest /\
     Stripe.subscriptionItems_update api k r0 (Stripe.id item) q = Err e).

(** ** The client's [createCheckoutSession] *)

Record Discount := mkDiscount {
  coupon : option string;
  promotion_code : option string }.

Record CheckoutSessionArgs := mkCheckoutSessionArgs {
  priceId : string;
  mode : string;
  successUrl : string;
  cancelUrl : string;
  allowPromotionCodes : option bool;
  discounts : option (list Discount) }.

(** [stripe.checkout.sessions.create(params)]: the new session's id and
    url, and the remote account after it. *)
Variable checkout_sessions_create :
  string -> R -> CheckoutSessionArgs -> result (R * (string * string)).

(** Modelled from the spec: [StripeSubscriptions.createCheckoutSession] of
    src/client/index.ts, whose code is not in src/ (only its test
    index.test.ts is).  Requesting both promotion-code allowance and an
    explicit discount list is a caller configuration error raised before
    any remote or local write ("Cannot use both allowPromotionCodes and
    discounts", as the test expects); otherwise the session is created
    remotely. *)
Definition createCheckoutSession (args : CheckoutSessionArgs)
  : Act (string * string) :=
  match allowPromotionCodes args, discounts args with
  | Some true, Some _ =>
      athrow "Cannot use both allowPromotionCodes and discounts"
  | _, _ =>
      apiKey <-- getEnv ;;
      if missing_key apiKey then
        athrow "STRIPE_SECRET_KEY environment variable is not set"
      else
        let k := match apiKey with Some k => k | None => "" end in
        _ <-- emit (RemoteCheckoutSessionCreate (priceId args)) ;;
        (fun w => match checkout_sessions_create k (remote w) args with
                  | Ok (r', sess) =>
                      (Ok sess, mkWorld (STRIPE_SECRET_KEY w) r' (local w)
                                  (log w))
                  | Err e => (Err e, w)
                  end)
  end.

End Action.

(** ** The webhook's product sync *)

Module ProductPatch.
Record t := mk {
  stripeProductId : option string;
  name : option string;
  description : option (option string);
  active : option bool;
  type : option (option string);
  defaultPriceId : option (option string);
  metadata : option (option json);
  images : option (option (list string)) }.
Definition apply (p : t) (x : Product.t) : Product.t :=
  Product.mk
    (patch_field (stripeProductId p) (Product.stripeProductId x))
    (patch_field (name p) (Product.name x))
    (patch_field (description p) (Product.description x))
    (patch_field (active p) (Product.active x))
    (patch_field (type p) (Product.type x))
    (patch_field (defaultPriceId p) (Product.defaultPriceId x))
    (patch_field (metadata p) (Product.metadata x))
    (patch_field (images p) (Product.images x)).
End ProductPatch.

Definition patch_product (id : nat) (p : ProductPatch.t) : M unit :=
  fun s => match patch_table id (ProductPatch.apply p) (products s) with
           | Ok ps => Ok (tt, set_products s ps)
           | Err e => Err e
           end.

(** Modelled from the spec: the built-in sync of a [product.deleted]
    event (registerRoutes in src/client/index.ts and the component's
    webhook mutations, whose code is not in src/).  The spec: "never
    hard-deleted — [product.deleted] sets [active=false] (soft delete)
    rather than removing the row".  The product is looked up by its
    external id; an unknown id is left to the other product events. *)
Definition handleProductDeleted (stripeProductId : string) : M unit :=
  existing <- query (fun s =>
                unique (withIndex
                          (fun p => String.eqb (Product.stripeProductId p)
                                      stripeProductId)
                          (products s))) ;;
  match existing with
  | Some d =>
      patch_product (_id d)
        (ProductPatch.mk None None None (Some false) None None None None)
  | None => ret tt
  end.

(** ** The query surface as a whole *)

(** A record as a query returns it. *)
Inductive row : Type :=
| RProduct (p : Product.t)
| RPrice (p : Price.t)
| RCustomer (c : Customer.t)
| RSubscription (x : Subscription.t)
| RPayment (x : Payment.t)
| RInvoice (x : Invoice.t).

(** Every query of public.ts with its arguments. *)
Inductive query_call : Type :=
| QgetProduct (stripeProductId : string)
| QlistProducts
| QlistActiveProducts
| QgetPrice (stripePriceId : string)
| QlistPrices
| QlistActivePrices
| QlistPricesByProduct (stripeProductId : string)
| QlistActivePricesByProduct (stripeProductId : string)
| QgetPriceByLookupKey (lookupKey : string)
| QgetProductWithPrices (stripeProductId : string)
| QgetCustomer (stripeCustomerId : string)
| QgetSubscription (stripeSubscriptionId : string)
| QlistSubscriptions (stripeCustomerId : string)
| QgetSubscriptionByOrgId (orgId : string)
| QlistSubscriptionsByUserId (userId : string)
| QgetPayment (stripePaymentIntentId : string)
| QlistPayments (stripeCustomerId : string)
| QlistPaymentsByUserId (userId : string)
| QlistPaymentsByOrgId (orgId : string)
| QlistInvoices (stripeCustomerId : string)
| QlistInvoicesByOrgId (orgId : string)
| QlistInvoicesByUserId (userId : string).

Definition rows_of_option {A} (f : A -> row) (r : result (option A))
  : result (list row) :=
  match r with
  | Ok None => Ok []
  | Ok (Some a) => Ok [f a]
  | Err e => Err e
  end.

(** The records a query call returns (the product and then its prices
    for [getProductWithPrices]). *)
Definition returned_rows (s : db) (q : query_call) : result (list row) :=
  match q with
  | QgetProduct i => rows_of_option RProduct (getProduct s i)
  | QlistProducts => Ok (map RProduct (listProducts s))
  | QlistActiveProducts => Ok (map RProduct (listActiveProducts s))
  | QgetPrice i => rows_of_option RPrice (getPrice s i)
  | QlistPrices => Ok (map RPrice (listPrices s))
  | QlistActivePrices => Ok (map RPrice (listActivePrices s))
  | QlistPricesByProduct i => Ok (map RPrice (listPricesByProduct s i))
  | QlistActivePricesByProduct i =>
      Ok (map RPrice (listActivePricesByProduct s i))
  | QgetPriceByLookupKey k => rows_of_option RPrice (getPriceByLookupKey s k)
  | QgetProductWithPrices i =>
      match getProductWithPrices s i with
      | Ok None => Ok []
      | Ok (Some pwp) =>
          Ok (RProduct (pwp_product pwp) :: map RPrice (pwp_prices pwp))
      | Err e => Err e
      end
  | QgetCustomer i => rows_of_option RCustomer (getCustomer s i)
  | QgetSubscription i => rows_of_option RSubscription (getSubscription s i)
  | QlistSubscriptions i => Ok (map RSubscription (listSubscriptions s i))
  | QgetSubscriptionByOrgId o =>
      rows_of_option RSubscription (Ok (getSubscriptionByOrgId s o))
  | QlistSubscriptionsByUserId u =>
      Ok (map RSubscription (listSubscriptionsByUserId s u))
  | QgetPayment i => rows_of_option RPayment (getPayment s i)
  | QlistPayments i => Ok (map RPayment (listPayments s i))
  | QlistPaymentsByUserId u => Ok (map RPayment (listPaymentsByUserId s u))
  | QlistPaymentsByOrgId o => Ok (map RPayment (listPaymentsByOrgId s o))
  | QlistInvoices i => Ok (map RInvoice (listInvoices s i))
  | QlistInvoicesByOrgId o => Ok (map RInvoice (listInvoicesByOrgId s o))
  | QlistInvoicesByUserId u => Ok (map RInvoice (listInvoicesByUserId s u))
  end.

(** The user fields of every stored document, system fields left out. *)
Definition stored_rows (s : db) : list row :=
  map (fun d => RProduct (fields d)) (products s) ++
  map (fun d => RPrice (fields d)) (prices s) ++
  map (fun d => RCustomer (fields d)) (customers s) ++
  map (fun d => RSubscription (fields d)) (subscriptions s) ++
  map (fun d => RPayment (fields d)) (payments s) ++
  map (fun d => RInvoice (fields d)) (invoices s).

(** Invariants of the store: each table keyed by its external id holds at
    most one document per key, and the ids are fresh. *)
Definition keyed {A} (key : A -> string) (tbl : list (doc A)) : Prop :=
  NoDup (map (fun d => key (fields d)) tbl).

Definition fresh_ids {A} (s : db) (tbl : list (doc A)) : Prop :=
  Forall (fun d => _id d < next_id s) tbl.

(** * Lemmas *)

Lemma incl_withIndex {A} (f : A -> bool) tbl : incl (withIndex f tbl) tbl.
Proof.
  intros d Hd. unfold withIndex in Hd. apply filter_In in Hd. tauto.
Qed.

Lemma In_withIndex {A} (f : A -> bool) tbl d :
  In d (withIndex f tbl) <-> In d tbl /\ f (fields d) = true.
Proof. unfold withIndex. apply filter_In. Qed.

Lemma unique_Some_In {A} (ds : list (doc A)) d :
  unique ds = Ok (Some d) -> In d ds.
Proof.
  destruct ds as [|x [|y ds]]; simpl; intros H; try discriminate.
  inversion H; subst. now left.
Qed.

Lemma unique_one {A} (d : doc A) : unique [d] = Ok (Some d).
Proof. reflexivity. Qed.

Lemma Forall_map_stripped {A} (R : A -> row) (P : row -> Prop)
  (tbl sub : list (doc A)) :
  (forall d, In d tbl -> P (R (fields d))) -> incl sub tbl ->
  Forall P (map R (map_stripped sub)).
Proof.
  intros HP Hincl. apply Forall_forall. intros r Hr.
  unfold map_stripped in Hr. rewrite map_map in Hr.
  apply in_map_iff in Hr as [d [<- Hd]]. apply HP, Hincl, Hd.
Qed.

Lemma rows_of_lookup {A} (R : A -> row) (P : row -> Prop)
  (tbl sub : list (doc A)) :
  (forall d, In d tbl -> P (R (fields d))) -> incl sub tbl ->
  match rows_of_option R (lookup_stripped sub) with
  | Ok rows => Forall P rows
  | Err _ => True
  end.
Proof.
  intros HP Hincl. unfold lookup_stripped.
  destruct (unique sub) as [[d|]|e] eqn:E; simpl; auto.
  constructor; [|constructor]. apply HP, Hincl, unique_Some_In, E.
Qed.

Section Stored.
Variable s : db.

Lemma stored_product d : In d (products s) -> In (RProduct (fields d)) (stored_rows s).
Proof.
  intros H. unfold stored_rows. apply in_or_app; left.
  apply in_map_iff. eauto.
Qed.

Lemma stored_price d : In d (prices s) -> In (RPrice (fields d)) (stored_rows s).
Proof.
  intros H. unfold stored_rows. apply in_or_app; right.
  apply in_or_app; left. apply in_map_iff. eauto.
Qed.

Lemma stored_customer d :
  In d (customers s) -> In (RCustomer (fields d)) (stored_rows s).
Proof.
  intros H. unfold stored_rows. do 2 (apply in_or_app; right).
  apply in_or_app; left. apply in_map_iff. eauto.
Qed.

Lemma stored_subscription d :
  In d (subscriptions s) -> In (RSubscription (fields d)) (stored_rows s).
Proof.
  intros H. unfold stored_rows. do 3 (apply in_or_app; right).
  apply in_or_app; left. apply in_map_iff. eauto.
Qed.

Lemma stored_payment d :
  In d (payments s) -> In (RPayment (fields d)) (stored_rows s).
Proof.
  intros H. unfold stored_rows. do 4 (apply in_or_app; right).
  apply in_or_app; left. apply in_map_iff. eauto.
Qed.

Lemma stored_invoice d :
  In d (invoices s) -> In (RInvoice (fields d)) (stored_rows s).
Proof.
  intros H. unfold stored_rows. do 5 (apply in_or_app; right).
  apply in_map_iff. eauto.
Qed.

End Stored.

Create HintDb stored.
#[export] Hint Resolve stored_product stored_price stored_customer
  stored_subscription stored_payment stored_invoice incl_withIndex
  incl_refl : stored.

Ltac stored_rows_case :=
  first
    [ eapply rows_of_lookup; [intros; eauto with stored | apply incl_withIndex]
    | eapply Forall_map_stripped; [intros; eauto with stored | ];
      first [ apply incl_refl | apply incl_withIndex
            | eapply incl_tran; [apply incl_filter | apply incl_withIndex] ] ].

(** * The claims *)

(** C7: every query of the query surface (point lookups, full, active and
    secondary-index listings, and the product-with-prices read) returns
    plain records: each returned record is, verbatim, the user fields of a
    stored document, without its [_id] and [_creationTime]. *)
Theorem query_surface_returns_stripped_records (s : db) (q : query_call) :
  match returned_rows s q with
  | Ok rows => Forall (fun r => In r (stored_rows s)) rows
  | Err _ => True
  end.
Proof.
  destruct q; simpl; try stored_rows_case.
  - (* getProductWithPrices *)
    unfold getProductWithPrices.
    destruct (unique _) as [[d|]|e] eqn:E; simpl; auto.
    constructor.
    + apply stored_product. eapply incl_withIndex, unique_Some_In, E.
    + eapply Forall_map_stripped; [intros; eauto with stored|].
      apply incl_withIndex.
  - (* getSubscriptionByOrgId *)
    unfold getSubscriptionByOrgId, first.
    destruct (withIndex _ _) as [|d ds] eqn:E; simpl; auto.
    constructor; [|constructor]. apply stored_subscription.
    apply (incl_withIndex (fun x => opt_str_eqb (Subscription.orgId x) orgId)).
    rewrite E. now left.
Qed.

Lemma map_strip_filter {A} (p : A -> bool) (tbl : list (doc A)) :
  map_stripped (filter (fun d => p (fields d)) tbl) = filter p (map_stripped tbl).
Proof.
  unfold map_stripped, strip. induction tbl as [|d tbl IH]; simpl; auto.
  destruct (p (fields d)); simpl; now rewrite IH.
Qed.

(** C8: listing by active flag is the full listing filtered on [active]:
    [listActiveProducts] is [listProducts] restricted to the active
    products, and [listActivePricesByProduct id] is
    [listPricesByProduct id] restricted to the active prices (same
    records, here even in the same order). *)
Theorem active_listings_filter_full_listings (s : db) (stripeProductId : string) :
  listActiveProducts s = filter (fun p => Product.active p) (listProducts s) /\
  listActivePricesByProduct s stripeProductId =
    filter (fun p => Price.active p) (listPricesByProduct s stripeProductId).
Proof.
  split.
  - unfold listActiveProducts, listProducts, withIndex.
    rewrite <- map_strip_filter. f_equal. apply filter_ext.
    intros d. now destruct (Product.active (fields d)).
  - unfold listActivePricesByProduct, listPricesByProduct.
    apply (map_strip_filter Price.active).
Qed.

Lemma withIndex_nil {A} (f : A -> bool) tbl :
  (forall d, In d tbl -> f (fields d) = false) -> withIndex f tbl = [].
Proof.
  intros H. unfold withIndex. induction tbl as [|d tbl IH]; simpl; auto.
  rewrite H by (now left). apply IH. intros; apply H; now right.
Qed.

Lemma patch_table_in {A} (f : A -> A) (d : doc A) tbl :
  In d tbl ->
  patch_table (_id d) f tbl =
  Ok (map (fun d' => if Nat.eqb (_id d') (_id d)
                     then mkDoc (_id d') (_creationTime d') (f (fields d'))
                     else d') tbl).
Proof.
  intros H. unfold patch_table.
  replace (existsb _ tbl) with true; [reflexivity|].
  symmetry. apply existsb_exists. exists d. split; auto. apply Nat.eqb_refl.
Qed.

Lemma withIndex_single_In {A} (f : A -> bool) tbl d :
  withIndex f tbl = [d] -> In d tbl /\ f (fields d) = true.
Proof.
  intros H. apply In_withIndex. rewrite H. now left.
Qed.

(** The subscription whose external id is [sid]. *)
Definition sub_key (sid : string) (x : Subscription.t) : bool :=
  String.eqb (Subscription.stripeSubscriptionId x) sid.

(** C2: [updateSubscriptionMetadata] on an external id no subscription
    has throws and leaves the store unchanged; when exactly one
    subscription has the id, it succeeds and returns [null]. *)
Theorem updateSubscriptionMetadata_known_id (s : db) (sid : string)
  (metadata : json) (orgId userId : option string) :
  ((forall d, In d (subscriptions s) ->
              Subscription.stripeSubscriptionId (fields d) <> sid) ->
   runMutation (updateSubscriptionMetadata sid metadata orgId userId) s =
   (Err ("Subscription " ++ sid ++ " not found in database"), s)) /\
  (forall d, withIndex (sub_key sid) (subscriptions s) = [d] ->
   exists s', runMutation (updateSubscriptionMetadata sid metadata orgId userId) s =
              (Ok tt, s')).
Proof.
  split.
  - intros Hnone. unfold runMutation, updateSubscriptionMetadata, bind, query.
    rewrite withIndex_nil; [reflexivity|].
    intros d Hd. apply String.eqb_neq. now apply Hnone.
  - intros d Hd. unfold runMutation, updateSubscriptionMetadata, bind, query.
    fold (sub_key sid). rewrite Hd. simpl.
    unfold patch_subscription.
    rewrite (patch_table_in _ d) by (apply (withIndex_single_In _ _ _ Hd)).
    eexists. reflexivity.
Qed.

(** C4: on an existing subscription, [updateSubscriptionMetadata] writes
    exactly [metadata], [orgId] and [userId] with the supplied values (an
    omitted [orgId] or [userId] removes the field) and keeps every other
    field; the other documents and tables are untouched. *)
Theorem updateSubscriptionMetadata_frame (s : db) (sid : string)
  (metadata : json) (orgId userId : option string) (d : doc Subscription.t) :
  withIndex (sub_key sid) (subscriptions s) = [d] ->
  runMutation (updateSubscriptionMetadata sid metadata orgId userId) s =
  (Ok tt,
   mkDb (products s) (prices s) (customers s)
     (map (fun d' =>
             if Nat.eqb (_id d') (_id d) then
               let x := fields d' in
               mkDoc (_id d') (_creationTime d')
                 (Subscription.mk (Subscription.stripeSubscriptionId x)
                    (Subscription.stripeCustomerId x) (Subscription.status x)
                    (Subscription.currentPeriodEnd x)
                    (Subscription.cancelAtPeriodEnd x) (Subscription.cancelAt x)
                    (Subscription.quantity x) (Subscription.priceId x)
                    (Some metadata) orgId userId)
             else d') (subscriptions s))
     (checkout_sessions s) (payments s) (invoices s) (next_id s)).
Proof.
  intros Hd. unfold runMutation, updateSubscriptionMetadata, bind, query.
  fold (sub_key sid). rewrite Hd. simpl.
  unfold patch_subscription.
  rewrite (patch_table_in _ d) by (apply (withIndex_single_In _ _ _ Hd)).
  reflexivity.
Qed.

Lemma keyed_withIndex_In {A} (key : A -> string) tbl (d : doc A) id :
  keyed key tbl -> In d tbl -> key (fields d) = id ->
  withIndex (fun x => String.eqb (key x) id) tbl = [d].
Proof.
  unfold keyed. induction tbl as [|d0 tbl IH]; simpl; [tauto|].
  intros Hnd Hin Hk. apply NoDup_cons_iff in Hnd as [Hnotin Hnd'].
  destruct Hin as [<- | Hin].
  - rewrite Hk, String.eqb_refl. f_equal.
    apply withIndex_nil. intros d' Hd'. apply String.eqb_neq. intros Heq.
    apply Hnotin. rewrite Hk, <- Heq. apply in_map_iff. eauto.
  - destruct (String.eqb_spec (key (fields d0)) id) as [E|E].
    + exfalso. apply Hnotin. rewrite E, <- Hk. apply in_map_iff. eauto.
    + now apply IH.
Qed.

Lemma keyed_withIndex_cases {A} (key : A -> string) tbl id :
  keyed key tbl ->
  withIndex (fun x => String.eqb (key x) id) tbl = [] \/
  exists d, In d tbl /\ key (fields d) = id /\
            withIndex (fun x => String.eqb (key x) id) tbl = [d].
Proof.
  intros Hk.
  destruct (withIndex (fun x => String.eqb (key x) id) tbl) as [|d ds] eqn:E;
    [now left|right].
  assert (Hd : In d (withIndex (fun x => String.eqb (key x) id) tbl))
    by (rewrite E; now left).
  apply In_withIndex in Hd as [Hin Hkey]. apply String.eqb_eq in Hkey.
  exists d. split; [|split]; auto.
  rewrite <- E. now apply keyed_withIndex_In.
Qed.

(** Patching documents by id keeps the documents an index range selects
    when the patch keeps the indexed field. *)
Lemma withIndex_map_patch {A} (f : A -> bool) (g : A -> A) n tbl :
  (forall x, f (g x) = f x) ->
  withIndex f (map (fun d' => if Nat.eqb (_id d') n
                              then mkDoc (_id d') (_creationTime d') (g (fields d'))
                              else d') tbl) =
  map (fun d' => if Nat.eqb (_id d') n
                 then mkDoc (_id d') (_creationTime d') (g (fields d'))
                 else d') (withIndex f tbl).
Proof.
  intros Hg. unfold withIndex. induction tbl as [|d tbl IH]; simpl; auto.
  destruct (Nat.eqb (_id d) n) eqn:E; simpl.
  - rewrite Hg. destruct (f (fields d)); simpl; rewrite ?E, IH; reflexivity.
  - destruct (f (fields d)); simpl; rewrite ?E, IH; reflexivity.
Qed.

Lemma map_patch_fresh {A} (g : A -> A) n (tbl : list (doc A)) :
  Forall (fun d => _id d < n) tbl ->
  map (fun d' => if Nat.eqb (_id d') n
                 then mkDoc (_id d') (_creationTime d') (g (fields d'))
                 else d') tbl = tbl.
Proof.
  induction 1 as [|d tbl Hd _ IH]; simpl; auto.
  rewrite IH. replace (Nat.eqb (_id d) n) with false; auto.
  symmetry. apply Nat.eqb_neq. intros E. rewrite E in Hd.
  exact (Nat.lt_irrefl _ Hd).
Qed.

Lemma map_patch_idem {A} (g : A -> A) n (tbl : list (doc A)) :
  (forall x, g (g x) = g x) ->
  let p := fun d' => if Nat.eqb (_id d') n
                     then mkDoc (_id d') (_creationTime d') (g (fields d'))
                     else d' in
  map p (map p tbl) = map p tbl.
Proof.
  intros Hg p. rewrite map_map. apply map_ext. intros d. unfold p.
  destruct (Nat.eqb (_id d) n) eqn:E; simpl; rewrite ?E, ?Hg; reflexivity.
Qed.

(** The customer whose external id is [cid]. *)
Definition cust_key (cid : string) (c : Customer.t) : bool :=
  String.eqb (Customer.stripeCustomerId c) cid.

(** The patch [createOrUpdateCustomer] writes on an existing customer. *)
Definition customer_overwrite (email name : option string)
  (metadata : option json) : CustomerPatch.t :=
  CustomerPatch.mk None (Some email) (Some name) (Some metadata).

Lemma customer_overwrite_apply e n m c :
  CustomerPatch.apply (customer_overwrite e n m) c =
  Customer.mk (Customer.stripeCustomerId c) e n m.
Proof. reflexivity. Qed.

Lemma customer_overwrite_idem e n m c :
  CustomerPatch.apply (customer_overwrite e n m)
    (CustomerPatch.apply (customer_overwrite e n m) c) =
  CustomerPatch.apply (customer_overwrite e n m) c.
Proof. reflexivity. Qed.

Lemma createOrUpdateCustomer_existing (s : db) cid e n m d :
  withIndex (cust_key cid) (customers s) = [d] ->
  runMutation (createOrUpdateCustomer cid e n m) s =
  (Ok cid,
   set_customers s
     (map (fun d' => if Nat.eqb (_id d') (_id d)
                     then mkDoc (_id d') (_creationTime d')
                            (CustomerPatch.apply (customer_overwrite e n m)
                               (fields d'))
                     else d') (customers s))).
Proof.
  intros Hd. unfold runMutation, createOrUpdateCustomer, bind, query.
  fold (cust_key cid). rewrite Hd. simpl. unfold patch_customer.
  rewrite (patch_table_in _ d) by (apply (withIndex_single_In _ _ _ Hd)).
  reflexivity.
Qed.

Lemma createOrUpdateCustomer_absent (s : db) cid e n m :
  withIndex (cust_key cid) (customers s) = [] ->
  runMutation (createOrUpdateCustomer cid e n m) s =
  (Ok cid,
   mkDb (products s) (prices s)
     (customers s ++ [new_doc s (Customer.mk cid e n m)])
     (subscriptions s) (checkout_sessions s) (payments s) (invoices s)
     (S (next_id s))).
Proof.
  intros Hd. unfold runMutation, createOrUpdateCustomer, bind, query.
  fold (cust_key cid). rewrite Hd. reflexivity.
Qed.

(** C10: on an existing customer, [createOrUpdateCustomer] sets [email],
    [name] and [metadata] to exactly the supplied values, whatever the
    record held before: an omitted ([undefined]) field is removed, not
    kept. *)
Theorem createOrUpdateCustomer_overwrites_exactly (s : db) (cid : string)
  (email name : option string) (metadata : option json) (d : doc Customer.t) :
  withIndex (cust_key cid) (customers s) = [d] ->
  exists s',
    runMutation (createOrUpdateCustomer cid email name metadata) s = (Ok cid, s') /\
    getCustomer s' cid = Ok (Some (Customer.mk cid email name metadata)).
Proof.
  intros Hd. eexists. split; [apply createOrUpdateCustomer_existing, Hd|].
  unfold getCustomer. fold (cust_key cid). simpl.
  rewrite withIndex_map_patch by reflexivity.
  rewrite Hd. simpl. rewrite Nat.eqb_refl. unfold lookup_stripped. simpl.
  destruct (withIndex_single_In _ _ _ Hd) as [_ Hk].
  unfold cust_key in Hk. apply String.eqb_eq in Hk.
  unfold strip; simpl. rewrite customer_overwrite_apply. now rewrite Hk.
Qed.

(** C3: [createOrUpdateCustomer] is an upsert keyed by [stripeCustomerId]
    on a store where that key is unique and the ids are fresh: with no
    customer of that id it inserts one, otherwise it overwrites the
    existing customer's [email], [name] and [metadata]; it returns the
    given id, and running the same call again leaves the store as it was
    after the first call (and returns the id again). *)
Theorem createOrUpdateCustomer_idempotent_upsert (s : db) (cid : string)
  (email name : option string) (metadata : option json) :
  keyed Customer.stripeCustomerId (customers s) ->
  fresh_ids s (customers s) ->
  exists s',
    runMutation (createOrUpdateCustomer cid email name metadata) s = (Ok cid, s') /\
    ((forall d, In d (customers s) -> Customer.stripeCustomerId (fields d) <> cid) ->
     s' = mkDb (products s) (prices s)
            (customers s ++ [new_doc s (Customer.mk cid email name metadata)])
            (subscriptions s) (checkout_sessions s) (payments s) (invoices s)
            (S (next_id s))) /\
    (forall d, In d (customers s) -> Customer.stripeCustomerId (fields d) = cid ->
     s' = set_customers s
            (map (fun d' => if Nat.eqb (_id d') (_id d)
                            then mkDoc (_id d') (_creationTime d')
                                   (Customer.mk (Customer.stripeCustomerId (fields d'))
                                      email name metadata)
                            else d') (customers s))) /\
    runMutation (createOrUpdateCustomer cid email name metadata) s' = (Ok cid, s').
Proof.
  intros Hkeyed Hfresh.
  destruct (keyed_withIndex_cases _ _ cid Hkeyed) as [E | [d [Hin [Hk E]]]];
    fold (cust_key cid) in E.
  - (* no customer with this id: insert *)
    eexists. split; [apply createOrUpdateCustomer_absent, E|].
    split; [reflexivity|]. split.
    + intros d Hd Hk. exfalso.
      assert (In d (withIndex (cust_key cid) (customers s))) as H'.
      { apply In_withIndex. split; auto. unfold cust_key. rewrite Hk.
        apply String.eqb_refl. }
      rewrite E in H'. exact H'.
    + rewrite (createOrUpdateCustomer_existing _ _ _ _ _
                 (new_doc s (Customer.mk cid email name metadata))).
      * simpl. rewrite map_app. simpl. rewrite Nat.eqb_refl.
        rewrite map_patch_fresh by exact Hfresh. reflexivity.
      * simpl. unfold withIndex in *. rewrite filter_app, E. simpl.
        unfold cust_key at 1. simpl. now rewrite String.eqb_refl.
  - (* the customer with this id: overwrite *)
    eexists. split; [apply createOrUpdateCustomer_existing, E|].
    split; [|split].
    + intros Hnone. exfalso. exact (Hnone d Hin Hk).
    + intros d0 Hin0 Hk0.
      assert (withIndex (cust_key cid) (customers s) = [d0]) as E0
        by (apply keyed_withIndex_In; auto).
      rewrite E in E0. injection E0 as <-. reflexivity.
    + rewrite (createOrUpdateCustomer_existing _ _ _ _ _
                 (mkDoc (_id d) (_creationTime d)
                    (CustomerPatch.apply (customer_overwrite email name metadata)
                       (fields d)))).
      * simpl. rewrite map_patch_idem by (intros; reflexivity). reflexivity.
      * simpl. rewrite withIndex_map_patch by reflexivity.
        rewrite E. simpl. now rewrite Nat.eqb_refl.
Qed.

(** The product whose external id is [pid]. *)
Definition prod_key (pid : string) (p : Product.t) : bool :=
  String.eqb (Product.stripeProductId p) pid.

Lemma getProductWithPrices_found (s : db) pid d :
  withIndex (prod_key pid) (products s) = [d] ->
  getProductWithPrices s pid =
  Ok (Some (mkProductWithPrices (strip d) (listPricesByProduct s pid))).
Proof.
  intros E. unfold getProductWithPrices. fold (prod_key pid). now rewrite E.
Qed.

(** C9: on a store where product external ids are unique,
    [getProductWithPrices pid] is [null] exactly when no product has the
    id; otherwise it is that product, stripped, with the prices
    [listPricesByProduct pid] returns, which are exactly the stored
    prices of the product, active or not, stripped. *)
Theorem getProductWithPrices_null_iff_absent (s : db) (pid : string) :
  keyed Product.stripeProductId (products s) ->
  (getProductWithPrices s pid = Ok None <->
   (forall d, In d (products s) -> Product.stripeProductId (fields d) <> pid)) /\
  (forall d, In d (products s) -> Product.stripeProductId (fields d) = pid ->
   getProductWithPrices s pid =
     Ok (Some (mkProductWithPrices (strip d) (listPricesByProduct s pid)))) /\
  (forall r, In r (listPricesByProduct s pid) <->
   exists p, In p (prices s) /\ Price.stripeProductId (fields p) = pid /\
             r = strip p).
Proof.
  intros Hkeyed. split; [split|split].
  - intros Hnull d Hin Hk.
    rewrite (getProductWithPrices_found s pid d) in Hnull; [discriminate|].
    now apply keyed_withIndex_In.
  - intros Hnone. unfold getProductWithPrices.
    rewrite withIndex_nil; [reflexivity|].
    intros d Hd. apply String.eqb_neq, Hnone, Hd.
  - intros d Hin Hk. apply getProductWithPrices_found.
    now apply keyed_withIndex_In.
  - intros r. unfold listPricesByProduct, map_stripped. rewrite in_map_iff.
    split.
    + intros [p [<- Hp]]. apply In_withIndex in Hp as [Hp Hk].
      apply String.eqb_eq in Hk. eauto.
    + intros [p [Hp [Hk ->]]]. exists p. split; auto.
      apply In_withIndex. split; auto. now apply String.eqb_eq.
Qed.

Lemma listProducts_all (s : db) d :
  In d (products s) -> In (strip d) (listProducts s).
Proof. intros H. unfold listProducts, map_stripped. now apply in_map. Qed.

(** C6: a [product.deleted] event for a stored product soft-deletes it:
    afterwards [getProduct] still returns the product, with
    [active = false] and its other fields kept, the table keeps all its
    documents, and [listProducts] returns every stored product whatever
    its active flag, the deleted one included. *)
Theorem product_deleted_is_soft_delete (s : db) (pid : string)
  (d : doc Product.t) :
  withIndex (prod_key pid) (products s) = [d] ->
  exists s',
    runMutation (handleProductDeleted pid) s = (Ok tt, s') /\
    let p := fields d in
    let p' := Product.mk (Product.stripeProductId p) (Product.name p)
                (Product.description p) false (Product.type p)
                (Product.defaultPriceId p) (Product.metadata p)
                (Product.images p) in
    getProduct s' pid = Ok (Some p') /\
    Product.active p' = false /\
    In p' (listProducts s') /\
    length (products s') = length (products s) /\
    (forall d', In d' (products s') -> In (strip d') (listProducts s')).
Proof.
  intros E. destruct (withIndex_single_In _ _ _ E) as [Hin _].
  eexists. split.
  - unfold runMutation, handleProductDeleted, bind, query.
    fold (prod_key pid). rewrite E. simpl. unfold patch_product.
    rewrite (patch_table_in _ d _ Hin). reflexivity.
  - cbv zeta. split; [|split; [reflexivity|split; [|split]]].
    + unfold getProduct. fold (prod_key pid). simpl.
      rewrite withIndex_map_patch by reflexivity.
      rewrite E. simpl. rewrite Nat.eqb_refl. reflexivity.
    + unfold listProducts, map_stripped. simpl. apply in_map_iff.
      exists (mkDoc (_id d) (_creationTime d)
                (ProductPatch.apply
                   (ProductPatch.mk None None None (Some false) None None None None)
                   (fields d))).
      split; [reflexivity|]. apply in_map_iff. exists d.
      split; auto. now rewrite Nat.eqb_refl.
    + simpl. apply length_map.
    + apply listProducts_all.
Qed.

(** C5 (model of the client, see [createCheckoutSession]): a checkout
    session requested with both [allowPromotionCodes] and an explicit
    [discounts] list fails with "Cannot use both allowPromotionCodes and
    discounts" before anything happens: no remote call is issued and the
    remote account and the local store are as they were. *)
Theorem createCheckoutSession_rejects_promo_with_discounts {R : Type}
  (create : string -> R -> CheckoutSessionArgs -> result (R * (string * string)))
  (args : CheckoutSessionArgs) (ds : list Discount) (w : world) :
  allowPromotionCodes args = Some true ->
  discounts args = Some ds ->
  createCheckoutSession create args w =
  (Err "Cannot use both allowPromotionCodes and discounts", w).
Proof.
  intros Hp Hd. unfold createCheckoutSession. now rewrite Hp, Hd.
Qed.

(** A branch of the action that throws before the local mutation. *)
Ltac throws_before_local_write :=
  split; [|split; [|split]];
  [ intros _; split; [reflexivity|split; [reflexivity|]]; simpl;
    intuition discriminate
  | simpl; intros H; exfalso; intuition discriminate
  | intros _; reflexivity
  | intros H; exfalso; apply H; reflexivity ].

(** C1: [updateSubscriptionQuantity] instructs Stripe before it writes
    locally.  When one of the steps before the local write fails (no or
    empty [STRIPE_SECRET_KEY], the retrieve fails, the subscription has no
    items, the item update fails) the action throws, the local store is
    unchanged and the local mutation is never run; when the local mutation
    runs, the key was set, the retrieve and the update of the first item
    succeeded, in that order; a throwing action leaves the local store
    unchanged, and the store changes only through the local mutation. *)
Theorem updateSubscriptionQuantity_remote_first {R : Type}
  (api : Stripe.Api R) (internal : string -> Z -> M unit)
  (key : option string) (r0 : R) (s0 : db) (sid : string) (q : Z) :
  let '(res, w) :=
    updateSubscriptionQuantity api internal sid q (mkWorld key r0 s0 []) in
  (remote_step_fails api key r0 sid q ->
   is_err res = true /\ local w = s0 /\ ~ In (LocalMutation sid q) (log w)) /\
  (In (LocalMutation sid q) (log w) ->
   exists k sub item rest r1,
     key = Some k /\ k <> "" /\
     Stripe.subscriptions_retrieve api k r0 sid = Ok sub /\
     Stripe.items_data sub = item :: rest /\
     Stripe.subscriptionItems_update api k r0 (Stripe.id item) q = Ok r1 /\
     log w = [RemoteRetrieve sid; RemoteItemUpdate (Stripe.id item) q;
              LocalMutation sid q]) /\
  (is_err res = true -> local w = s0) /\
  (local w <> s0 -> In (LocalMutation sid q) (log w)).
Proof.
  unfold updateSubscriptionQuantity, abind, getEnv, athrow, aret, emit,
    retrieve, updateItem, runMut; simpl.
  destruct key as [k|]; [|throws_before_local_write].
  destruct (String.eqb_spec k "") as [->|Hk]; simpl;
    [throws_before_local_write|].
  destruct (Stripe.subscriptions_retrieve api k r0 sid) as [sub|e] eqn:Er;
    simpl; [|throws_before_local_write].
  destruct (Stripe.items_data sub) as [|item rest] eqn:Ei; simpl;
    [throws_before_local_write|].
  destruct (Stripe.subscriptionItems_update api k r0 (Stripe.id item) q)
    as [r1|e] eqn:Eu; simpl; [|throws_before_local_write].
  assert (Hok : ~ remote_step_fails api (Some k) r0 sid q).
  { intros Hf. destruct Hf as [H|[H|[H|[H|H]]]]; try discriminate.
    + injection H as H. contradiction.
    + destruct H as (k' & e & Hk' & _ & He). injection Hk' as <-. congruence.
    + destruct H as (k' & sub' & Hk' & _ & Hs & He). injection Hk' as <-.
      congruence.
    + destruct H as (k' & sub' & item' & rest' & e & Hk' & _ & Hs & Hi & He).
      injection Hk' as <-. rewrite Er in Hs. injection Hs as <-.
      rewrite Ei in Hi. injection Hi as <- <-. congruence. }
  unfold runMutation.
  destruct (internal sid q s0) as [[a s1]|e]; simpl;
    (split; [|split; [|split]]);
    try (intros Hf; exfalso; exact (Hok Hf));
    try (intros _; exists k, sub, item, rest, r1; repeat split; auto);
    try (intros _; right; right; now left);
    try (intros _; reflexivity);
    try (intros H; discriminate).
Qed.

(** * Further properties of public.ts *)

Lemma opt_str_eqb_true o x : opt_str_eqb o x = true <-> o = Some x.
Proof.
  destruct o as [y|]; simpl; [|split; discriminate].
  rewrite String.eqb_eq. split; [now intros ->|now injection 1].
Qed.

Lemma In_map_stripped_withIndex {A} (f : A -> bool) tbl x :
  In x (map_stripped (withIndex f tbl)) <->
  (exists d, In d tbl /\ fields d = x) /\ f x = true.
Proof.
  unfold map_stripped, strip. rewrite in_map_iff. split.
  - intros [d [<- Hd]]. apply In_withIndex in Hd as [Hd Hf]. eauto.
  - intros [[d [Hd <-]] Hf]. exists d. split; auto. now apply In_withIndex.
Qed.


(** X2: [getPriceByLookupKey k] returns only a stored price whose
    [lookupKey] is [k]: prices without a lookup key are never returned,
    and the result is [null] when no price carries [k]. *)
Theorem getPriceByLookupKey_sound (s : db) (k : string) :
  (forall p, getPriceByLookupKey s k = Ok (Some p) ->
   Price.lookupKey p = Some k /\ In p (listPrices s)) /\
  ((forall d, In d (prices s) -> Price.lookupKey (fields d) <> Some k) ->
   getPriceByLookupKey s k = Ok None).
Proof.
  split.
  - intros p H. unfold getPriceByLookupKey, lookup_stripped in H.
    destruct (unique _) as [[d|]|e] eqn:E; try discriminate.
    injection H as <-. apply unique_Some_In, In_withIndex in E as [Hd Hk].
    split; [now apply opt_str_eqb_true|]. unfold listPrices, map_stripped.
    now apply in_map.
  - intros Hnone. unfold getPriceByLookupKey.
    rewrite withIndex_nil; [reflexivity|]. intros d Hd.
    destruct (opt_str_eqb _ k) eqn:E; auto.
    apply opt_str_eqb_true in E. exfalso. exact (Hnone d Hd E).
Qed.

Lemma hd_filter_Some {A} (f : A -> bool) l x :
  hd_error (filter f l) = Some x ->
  exists pre post, l = (pre ++ x :: post)%list /\ f x = true /\
                   forall y, In y pre -> f y = false.
Proof.
  induction l as [|y l IH]; simpl; [discriminate|].
  destruct (f y) eqn:E; simpl.
  - intros H. injection H as <-. exists [], l. simpl.
    split; [reflexivity|split; [exact E|intros ? []]].
  - intros H. destruct (IH H) as (pre & post & -> & Hx & Hpre).
    exists (y :: pre), post. split; [reflexivity|split; auto].
    intros z [<-|Hz]; auto.
Qed.

(** X3: [getSubscriptionByOrgId o] never throws, even when several
    subscriptions share the [orgId]: it is [null] exactly when no
    subscription has [orgId = o], and otherwise the earliest-created such
    subscription, stripped. *)
Theorem getSubscriptionByOrgId_earliest (s : db) (o : string) :
  (getSubscriptionByOrgId s o = None <->
   forall d, In d (subscriptions s) -> Subscription.orgId (fields d) <> Some o) /\
  (forall x, getSubscriptionByOrgId s o = Some x ->
   exists pre d post,
     subscriptions s = (pre ++ d :: post)%list /\ x = strip d /\
     Subscription.orgId x = Some o /\
     forall d', In d' pre -> Subscription.orgId (fields d') <> Some o).
Proof.
  unfold getSubscriptionByOrgId, first, withIndex. split.
  - split.
    + intros H d Hd Ho.
      destruct (hd_error _) eqn:E; [discriminate|].
      destruct (filter _ (subscriptions s)) eqn:F; [|discriminate].
      assert (In d (filter (fun d => opt_str_eqb (Subscription.orgId (fields d)) o)
                      (subscriptions s))) as Hin.
      { apply filter_In. split; auto. now apply opt_str_eqb_true. }
      rewrite F in Hin. exact Hin.
    + intros Hnone. replace (filter _ (subscriptions s)) with (@nil (doc Subscription.t));
        [reflexivity|].
      symmetry. apply (withIndex_nil (fun x => opt_str_eqb (Subscription.orgId x) o)).
      intros d Hd. destruct (opt_str_eqb _ o) eqn:E; auto.
      apply opt_str_eqb_true in E. exfalso. exact (Hnone d Hd E).
  - intros x H. destruct (hd_error _) as [d|] eqn:E; [|discriminate].
    injection H as <-. apply hd_filter_Some in E as (pre & post & Hs & Hd & Hpre).
    exists pre, d, post. split; [exact Hs|split; [reflexivity|split]].
    + now apply opt_str_eqb_true.
    + intros d' Hd' Ho. pose proof (Hpre d' Hd') as F.
      apply opt_str_eqb_true in Ho. congruence.
Qed.

(** X4: the [orgId]/[userId] listings of subscriptions, payments and
    invoices return exactly the stored records whose field is present and
    equal to the argument; a record without the field is never listed. *)
Theorem secondary_index_listings (s : db) (k : string) :
  (forall x, In x (listSubscriptionsByUserId s k) <->
     (exists d, In d (subscriptions s) /\ fields d = x) /\
     Subscription.userId x = Some k) /\
  (forall x, In x (listPaymentsByUserId s k) <->
     (exists d, In d (payments s) /\ fields d = x) /\ Payment.userId x = Some k) /\
  (forall x, In x (listPaymentsByOrgId s k) <->
     (exists d, In d (payments s) /\ fields d = x) /\ Payment.orgId x = Some k) /\
  (forall x, In x (listInvoicesByOrgId s k) <->
     (exists d, In d (invoices s) /\ fields d = x) /\ Invoice.orgId x = Some k) /\
  (forall x, In x (listInvoicesByUserId s k) <->
     (exists d, In d (invoices s) /\ fields d = x) /\ Invoice.userId x = Some k).
Proof.
  split; [|split; [|split; [|split]]]; intros x; split; intros H;
    first
      [ apply In_map_stripped_withIndex in H as [H1 H2];
        split; [exact H1|now apply opt_str_eqb_true]
      | destruct H as [H1 H2];
        apply In_map_stripped_withIndex; split; [exact H1|now apply opt_str_eqb_true] ].
Qed.

(** X5: the listings by customer ([listSubscriptions], [listPayments],
    [listInvoices]) return exactly the stored records of that customer; a
    payment without a customer id is never listed. *)
Theorem customer_listings (s : db) (cid : string) :
  (forall x, In x (listSubscriptions s cid) <->
     (exists d, In d (subscriptions s) /\ fields d = x) /\
     Subscription.stripeCustomerId x = cid) /\
  (forall x, In x (listPayments s cid) <->
     (exists d, In d (payments s) /\ fields d = x) /\
     Payment.stripeCustomerId x = Some cid) /\
  (forall x, In x (listInvoices s cid) <->
     (exists d, In d (invoices s) /\ fields d = x) /\
     Invoice.stripeCustomerId x = cid).
Proof.
  split; [|split]; intros x; split; intros H;
    first
      [ apply In_map_stripped_withIndex in H as [H1 H2];
        split; [exact H1|first [now apply opt_str_eqb_true | now apply String.eqb_eq]]
      | destruct H as [H1 H2];
        apply In_map_stripped_withIndex;
        split; [exact H1|first [now apply opt_str_eqb_true | now apply String.eqb_eq]] ].
Qed.

Lemma filter_comm {A} (f g : A -> bool) l :
  filter f (filter g l) = filter g (filter f l).
Proof.
  induction l as [|x l IH]; simpl; auto.
  destruct (g x) eqn:Eg, (f x) eqn:Ef; simpl; rewrite ?Eg, ?Ef, IH; reflexivity.
Qed.

(** X6: [listActivePrices] is [listPrices] restricted to the active
    prices, and [listActivePricesByProduct pid] is [listActivePrices]
    restricted to the prices of product [pid], in the same order. *)
Theorem active_price_listings (s : db) (pid : string) :
  listActivePrices s = filter (fun p => Price.active p) (listPrices s) /\
  listActivePricesByProduct s pid =
    filter (fun p => String.eqb (Price.stripeProductId p) pid) (listActivePrices s).
Proof.
  assert (Hact : listActivePrices s =
                 map_stripped (filter (fun d => Price.active (fields d)) (prices s))).
  { unfold listActivePrices, withIndex. f_equal. apply filter_ext.
    intros d. now destruct (Price.active (fields d)). }
  split.
  - rewrite Hact. apply (map_strip_filter Price.active).
  - rewrite Hact, <- (map_strip_filter (fun p => String.eqb (Price.stripeProductId p) pid)).
    unfold listActivePricesByProduct, withIndex. f_equal. apply filter_comm.
Qed.

(** X7: [getProductWithPrices pid] agrees with [getProduct pid]: it throws
    when the lookup throws, is [null] when it is [null], and otherwise
    pairs the product it returns with [listPricesByProduct pid]. *)
Theorem getProductWithPrices_getProduct (s : db) (pid : string) :
  getProductWithPrices s pid =
  match getProduct s pid with
  | Err e => Err e
  | Ok None => Ok None
  | Ok (Some p) => Ok (Some (mkProductWithPrices p (listPricesByProduct s pid)))
  end.
Proof.
  unfold getProductWithPrices, getProduct, lookup_stripped.
  destruct (unique _) as [[d|]|e]; reflexivity.
Qed.

(** Document ids are pairwise distinct within a table. *)
Definition distinct_ids {A} (tbl : list (doc A)) : Prop := NoDup (map _id tbl).

Lemma NoDup_map_inj {A B} (f : A -> B) l x y :
  NoDup (map f l) -> In x l -> In y l -> f x = f y -> x = y.
Proof.
  induction l as [|z l IH]; simpl; [tauto|].
  intros Hnd Hx Hy E. apply NoDup_cons_iff in Hnd as [Hz Hnd].
  destruct Hx as [<-|Hx], Hy as [<-|Hy]; auto.
  - exfalso. apply Hz. rewrite E. now apply in_map.
  - exfalso. apply Hz. rewrite <- E. now apply in_map.
Qed.

Lemma NoDup_snoc {A} (l : list A) x : NoDup l -> ~ In x l -> NoDup (l ++ [x]).
Proof.
  induction 1 as [|y l Hy Hnd IH]; simpl; intros Hx.
  - constructor; [intros []|constructor].
  - constructor.
    + rewrite in_app_iff. intros [H|[H|[]]]; [tauto|]. apply Hx. now left.
    + apply IH. intros H. apply Hx. now right.
Qed.

Lemma map_patch_key {A B} (k : A -> B) (g : A -> A) n (tbl : list (doc A)) :
  (forall x, k (g x) = k x) ->
  map (fun d => k (fields d))
    (map (fun d' => if Nat.eqb (_id d') n
                    then mkDoc (_id d') (_creationTime d') (g (fields d'))
                    else d') tbl) =
  map (fun d => k (fields d)) tbl.
Proof.
  intros Hg. rewrite map_map. apply map_ext. intros d.
  destruct (Nat.eqb (_id d) n); simpl; auto.
Qed.

Lemma map_patch_ids {A} (g : A -> A) n (tbl : list (doc A)) :
  map _id (map (fun d' => if Nat.eqb (_id d') n
                          then mkDoc (_id d') (_creationTime d') (g (fields d'))
                          else d') tbl) = map _id tbl.
Proof.
  rewrite map_map. apply map_ext. intros d. now destruct (Nat.eqb (_id d) n).
Qed.

Lemma map_patch_none {A} (g : A -> A) n (tbl : list (doc A)) :
  (forall d, In d tbl -> _id d <> n) ->
  map (fun d' => if Nat.eqb (_id d') n
                 then mkDoc (_id d') (_creationTime d') (g (fields d'))
                 else d') tbl = tbl.
Proof.
  induction tbl as [|d tbl IH]; simpl; intros H; auto.
  rewrite IH by auto. replace (Nat.eqb (_id d) n) with false; auto.
  symmetry. apply Nat.eqb_neq. apply H. now left.
Qed.

Lemma fresh_ids_map_patch {A} (s s' : db) (g : A -> A) n tbl :
  next_id s' = next_id s -> fresh_ids s tbl ->
  fresh_ids s'
    (map (fun d' => if Nat.eqb (_id d') n
                    then mkDoc (_id d') (_creationTime d') (g (fields d'))
                    else d') tbl).
Proof.
  intros Hn Hf. unfold fresh_ids in *. rewrite Forall_map, Hn.
  eapply Forall_impl; [|exact Hf]. intros d H. now destruct (Nat.eqb (_id d) n).
Qed.

(** X8: [createOrUpdateCustomer] throws exactly when two or more customers
    share the external id ([.unique()]), and then leaves the store
    unchanged; otherwise it returns the id. *)
Theorem createOrUpdateCustomer_throws_iff_duplicate (s : db) (cid : string)
  (email name : option string) (metadata : option json) :
  (is_err (fst (runMutation (createOrUpdateCustomer cid email name metadata) s)) = true
   <-> (2 <= length (withIndex (cust_key cid) (customers s)))%nat) /\
  (is_err (fst (runMutation (createOrUpdateCustomer cid email name metadata) s)) = true
   -> snd (runMutation (createOrUpdateCustomer cid email name metadata) s) = s) /\
  (is_err (fst (runMutation (createOrUpdateCustomer cid email name metadata) s)) = false
   -> fst (runMutation (createOrUpdateCustomer cid email name metadata) s) = Ok cid).
Proof.
  destruct (withIndex (cust_key cid) (customers s)) as [|d [|d' ds]] eqn:E.
  - rewrite (createOrUpdateCustomer_absent _ _ _ _ _ E). simpl.
    split; [split; [discriminate|lia]|split; [discriminate|reflexivity]].
  - rewrite (createOrUpdateCustomer_existing _ _ _ _ _ d E). simpl.
    split; [split; [discriminate|lia]|split; [discriminate|reflexivity]].
  - unfold runMutation, createOrUpdateCustomer, bind, query.
    fold (cust_key cid). rewrite E. simpl.
    split; [split; [intros _; lia|reflexivity]|split; [reflexivity|discriminate]].
Qed.

(** X9: [createOrUpdateCustomer] keeps the store's invariants for
    customers (unique external ids, fresh and distinct document ids) and
    writes no other table. *)
Theorem createOrUpdateCustomer_preserves_invariants (s : db) (cid : string)
  (email name : option string) (metadata : option json) :
  keyed Customer.stripeCustomerId (customers s) ->
  fresh_ids s (customers s) ->
  distinct_ids (customers s) ->
  let s' := snd (runMutation (createOrUpdateCustomer cid email name metadata) s) in
  keyed Customer.stripeCustomerId (customers s') /\
  fresh_ids s' (customers s') /\
  distinct_ids (customers s') /\
  products s' = products s /\ prices s' = prices s /\
  subscriptions s' = subscriptions s /\
  checkout_sessions s' = checkout_sessions s /\
  payments s' = payments s /\ invoices s' = invoices s.
Proof.
  intros Hk Hf Hd s'. subst s'.
  destruct (keyed_withIndex_cases _ _ cid Hk) as [E | [d [Hin [Hkey E]]]];
    fold (cust_key cid) in E.
  - rewrite (createOrUpdateCustomer_absent _ _ _ _ _ E). simpl.
    split; [|split; [|split; [|repeat split]]].
    + unfold keyed. rewrite map_app. simpl. apply NoDup_snoc; [exact Hk|].
      intros Hin. apply in_map_iff in Hin as [d [Hkd Hd']].
      assert (In d (withIndex (cust_key cid) (customers s))) as H'.
      { apply In_withIndex. split; auto. unfold cust_key. rewrite Hkd.
        apply String.eqb_refl. }
      rewrite E in H'. exact H'.
    + unfold fresh_ids. simpl. apply Forall_app. split.
      * eapply Forall_impl; [|exact Hf]. simpl. intros; lia.
      * constructor; [simpl; lia|constructor].
    + unfold distinct_ids. rewrite map_app. apply NoDup_snoc; [exact Hd|].
      simpl. intros Hin. apply in_map_iff in Hin as [d [Hid Hd']].
      unfold fresh_ids in Hf. rewrite Forall_forall in Hf. pose proof (Hf d Hd'). lia.
  - rewrite (createOrUpdateCustomer_existing _ _ _ _ _ d E). simpl.
    split; [|split; [|split; [|repeat split]]].
    + unfold keyed. simpl. rewrite map_patch_key by reflexivity. exact Hk.
    + apply (fresh_ids_map_patch s); auto.
    + unfold distinct_ids. simpl. rewrite map_patch_ids. exact Hd.
Qed.

(** X10: on a well-formed store, after [createOrUpdateCustomer cid ...]
    (either branch) [getCustomer cid] returns exactly the supplied record,
    and the lookup of every other customer id is unchanged. *)
Theorem createOrUpdateCustomer_getCustomer (s : db) (cid : string)
  (email name : option string) (metadata : option json) :
  keyed Customer.stripeCustomerId (customers s) ->
  fresh_ids s (customers s) ->
  distinct_ids (customers s) ->
  let s' := snd (runMutation (createOrUpdateCustomer cid email name metadata) s) in
  getCustomer s' cid = Ok (Some (Customer.mk cid email name metadata)) /\
  (forall cid', cid' <> cid -> getCustomer s' cid' = getCustomer s cid').
Proof.
  intros Hk Hf Hd s'. subst s'.
  destruct (keyed_withIndex_cases _ _ cid Hk) as [E | [d [Hin [Hkey E]]]];
    fold (cust_key cid) in E.
  - rewrite (createOrUpdateCustomer_absent _ _ _ _ _ E). simpl. split.
    + unfold getCustomer. fold (cust_key cid). simpl.
      unfold withIndex in *. rewrite filter_app, E. simpl.
      unfold cust_key at 1. simpl. rewrite String.eqb_refl. reflexivity.
    + intros cid' Hne. unfold getCustomer. fold (cust_key cid'). simpl.
      unfold withIndex. rewrite filter_app. simpl.
      unfold cust_key at 2. simpl.
      replace (String.eqb cid cid') with false
        by (symmetry; apply String.eqb_neq; congruence).
      now rewrite app_nil_r.
  - rewrite (createOrUpdateCustomer_existing _ _ _ _ _ d E). simpl. split.
    + unfold getCustomer. fold (cust_key cid). simpl.
      rewrite withIndex_map_patch by reflexivity. rewrite E. simpl.
      rewrite Nat.eqb_refl. unfold lookup_stripped, strip. simpl.
      rewrite customer_overwrite_apply. now rewrite Hkey.
    + intros cid' Hne. unfold getCustomer. fold (cust_key cid'). simpl.
      rewrite withIndex_map_patch by reflexivity.
      rewrite map_patch_none; [reflexivity|].
      intros x Hx Hid. apply In_withIndex in Hx as [Hx Hkx].
      assert (x = d) as -> by (eapply NoDup_map_inj; eauto).
      unfold cust_key in Hkx. apply String.eqb_eq in Hkx. congruence.
Qed.

(** The patch [updateSubscriptionMetadata] writes. *)
Definition metadata_patch (metadata : json) (orgId userId : option string)
  : SubscriptionPatch.t :=
  SubscriptionPatch.mk None None None None None None None None
    (Some (Some metadata)) (Some orgId) (Some userId).

Lemma updateSubscriptionMetadata_existing (s : db) sid md o u d :
  withIndex (sub_key sid) (subscriptions s) = [d] ->
  runMutation (updateSubscriptionMetadata sid md o u) s =
  (Ok tt,
   set_subscriptions s
     (map (fun d' => if Nat.eqb (_id d') (_id d)
                     then mkDoc (_id d') (_creationTime d')
                            (SubscriptionPatch.apply (metadata_patch md o u)
                               (fields d'))
                     else d') (subscriptions s))).
Proof.
  intros Hd. unfold runMutation, updateSubscriptionMetadata, bind, query.
  fold (sub_key sid). rewrite Hd. simpl. unfold patch_subscription.
  rewrite (patch_table_in _ d) by (apply (withIndex_single_In _ _ _ Hd)).
  reflexivity.
Qed.

(** X11: [updateSubscriptionMetadata sid] throws exactly when the number
    of subscriptions with external id [sid] is not one (none: "not found";
    several: [.unique()]), and a throwing call leaves the store unchanged. *)
Theorem updateSubscriptionMetadata_throws_iff (s : db) (sid : string)
  (metadata : json) (orgId userId : option string) :
  (is_err (fst (runMutation (updateSubscriptionMetadata sid metadata orgId userId) s))
     = true <-> length (withIndex (sub_key sid) (subscriptions s)) <> 1%nat) /\
  (is_err (fst (runMutation (updateSubscriptionMetadata sid metadata orgId userId) s))
     = true ->
   snd (runMutation (updateSubscriptionMetadata sid metadata orgId userId) s) = s).
Proof.
  destruct (withIndex (sub_key sid) (subscriptions s)) as [|d [|d' ds]] eqn:E.
  - unfold runMutation, updateSubscriptionMetadata, bind, query.
    fold (sub_key sid). rewrite E. simpl. split; [split; [intros _; lia|reflexivity]|reflexivity].
  - rewrite (updateSubscriptionMetadata_existing _ _ _ _ _ d E). simpl.
    split; [split; [discriminate|lia]|discriminate].
  - unfold runMutation, updateSubscriptionMetadata, bind, query.
    fold (sub_key sid). rewrite E. simpl.
    split; [split; [intros _; simpl; lia|reflexivity]|reflexivity].
Qed.

Lemma hd_filter_In {A} (f : A -> bool) l x :
  In x l -> f x = true -> hd_error (filter f l) <> None.
Proof.
  induction l as [|y l IH]; simpl; [tauto|].
  intros [<-|Hx] Hf.
  - rewrite Hf. discriminate.
  - destruct (f y); [discriminate|]. auto.
Qed.

(** X12: after [updateSubscriptionMetadata sid md o u] on the one
    subscription [d] with that id, [getSubscription sid] returns [d]'s
    record with the new [metadata], [orgId] and [userId]; it is listed by
    [listSubscriptionsByUserId] under the new [userId], and
    [getSubscriptionByOrgId] finds a subscription for the new [orgId]; a
    store with unique subscription ids keeps them unique. *)
Theorem updateSubscriptionMetadata_lookups (s : db) (sid : string)
  (md : json) (o u : option string) (d : doc Subscription.t) :
  withIndex (sub_key sid) (subscriptions s) = [d] ->
  let s' := snd (runMutation (updateSubscriptionMetadata sid md o u) s) in
  let x := fields d in
  let x' := Subscription.mk (Subscription.stripeSubscriptionId x)
              (Subscription.stripeCustomerId x) (Subscription.status x)
              (Subscription.currentPeriodEnd x) (Subscription.cancelAtPeriodEnd x)
              (Subscription.cancelAt x) (Subscription.quantity x)
              (Subscription.priceId x) (Some md) o u in
  getSubscription s' sid = Ok (Some x') /\
  (forall uid, u = Some uid -> In x' (listSubscriptionsByUserId s' uid)) /\
  (forall org, o = Some org -> getSubscriptionByOrgId s' org <> None) /\
  (keyed Subscription.stripeSubscriptionId (subscriptions s) ->
   keyed Subscription.stripeSubscriptionId (subscriptions s')).
Proof.
  intros E s' x x'. subst s'.
  destruct (withIndex_single_In _ _ _ E) as [Hin _].
  rewrite (updateSubscriptionMetadata_existing _ _ _ _ _ d E). simpl.
  set (p := fun d' : doc Subscription.t =>
              if Nat.eqb (_id d') (_id d)
              then mkDoc (_id d') (_creationTime d')
                     (SubscriptionPatch.apply (metadata_patch md o u) (fields d'))
              else d').
  assert (Hp : In (mkDoc (_id d) (_creationTime d) x') (map p (subscriptions s))).
  { apply in_map_iff. exists d. split; auto. unfold p. now rewrite Nat.eqb_refl. }
  split; [|split; [|split]].
  - unfold getSubscription. fold (sub_key sid).
    cbn [subscriptions set_subscriptions]. unfold p.
    rewrite withIndex_map_patch by reflexivity. rewrite E. simpl.
    rewrite Nat.eqb_refl. reflexivity.
  - intros uid ->. apply In_map_stripped_withIndex. split.
    + exists (mkDoc (_id d) (_creationTime d) x'). split; auto.
    + apply opt_str_eqb_true. reflexivity.
  - intros org ->. unfold getSubscriptionByOrgId, first, withIndex.
    destruct (hd_error _) eqn:F; [discriminate|].
    exfalso. revert F. apply (hd_filter_In _ _ _ Hp). simpl.
    apply String.eqb_refl.
  - unfold keyed. intros Hk. unfold p. rewrite map_patch_key by reflexivity.
    exact Hk.
Qed.

(** X13: once the Stripe item update has succeeded, the outcome of
    [updateSubscriptionQuantity] is that of the local mutation: its result
    (success, or the error it throws) and its store; the remote update
    stays applied even when the local mutation throws. *)
Theorem updateSubscriptionQuantity_after_remote_update {R : Type}
  (api : Stripe.Api R) (internal : string -> Z -> M unit)
  (k : string) (r0 r1 : R) (s0 : db) (sid : string) (q : Z)
  (sub : Stripe.Subscription) (item : Stripe.SubscriptionItem)
  (rest : list Stripe.SubscriptionItem) :
  k <> "" ->
  Stripe.subscriptions_retrieve api k r0 sid = Ok sub ->
  Stripe.items_data sub = item :: rest ->
  Stripe.subscriptionItems_update api k r0 (Stripe.id item) q = Ok r1 ->
  updateSubscriptionQuantity api internal sid q (mkWorld (Some k) r0 s0 []) =
  (fst (runMutation (internal sid q) s0),
   mkWorld (Some k) r1 (snd (runMutation (internal sid q) s0))
     [RemoteRetrieve sid; RemoteItemUpdate (Stripe.id item) q; LocalMutation sid q]).
Proof.
  intros Hk Er Ei Eu.
  unfold updateSubscriptionQuantity, abind, getEnv, athrow, aret, emit,
    retrieve, updateItem, runMut; simpl.
  replace (String.eqb k "") with false by (symmetry; now apply String.eqb_neq).
  cbn. rewrite Er. cbn. rewrite Ei. cbn. rewrite Eu. cbn.
  destruct (runMutation (internal sid q) s0) as [[[]|e] s1]; reflexivity.
Qed.

(** * Concrete runs *)

Local Open Scope Z_scope.

Definition cus_doc : doc Customer.t :=
  mkDoc 0 0 (Customer.mk "cus_1" (Some "ann@example.com") (Some "Ann") None).

Definition sub_doc : doc Subscription.t :=
  mkDoc 1 1
    (Subscription.mk "sub_1" "cus_1" "active" 1700000000 false None (Some 2)
       "price_1" None (Some "org_1") (Some "user_1")).

Definition prod_doc : doc Product.t :=
  mkDoc 2 2 (Product.mk "prod_1" "Pro" None true None None None None).

Definition price_doc (i : nat) (pid : string) (act : bool) : doc Price.t :=
  mkDoc i (Z.of_nat i)
    (Price.mk pid "prod_1" act "usd" "recurring" (Some 1000) None None
       (Some "month") (Some 1) None None None None None None).

Definition db0 : db :=
  mkDb [prod_doc] [price_doc 3 "price_1" true; price_doc 4 "price_2" false]
    [cus_doc] [sub_doc] [] [] [] 5.

(** The mutations and queries evaluated on [db0]. *)
Example createOrUpdateCustomer_new_run :
  fst (runMutation (createOrUpdateCustomer "cus_2" None None None) db0) = Ok "cus_2" /\
  length (customers (snd (runMutation
                            (createOrUpdateCustomer "cus_2" None None None) db0))) = 2%nat.
Proof. split; reflexivity. Qed.

Example createOrUpdateCustomer_clears_name :
  getCustomer (snd (runMutation (createOrUpdateCustomer "cus_1" None None None) db0))
    "cus_1" = Ok (Some (Customer.mk "cus_1" None None None)).
Proof. reflexivity. Qed.

Example updateSubscriptionMetadata_unknown :
  runMutation (updateSubscriptionMetadata "sub_9" JNull None None) db0 =
  (Err "Subscription sub_9 not found in database", db0).
Proof. reflexivity. Qed.

Example getProductWithPrices_run :
  getProductWithPrices db0 "prod_1" =
  Ok (Some (mkProductWithPrices (fields prod_doc)
              [fields (price_doc 3 "price_1" true);
               fields (price_doc 4 "price_2" false)])) /\
  listActivePricesByProduct db0 "prod_1" = [fields (price_doc 3 "price_1" true)].
Proof. split; reflexivity. Qed.

Example getProduct_duplicate_throws :
  is_err (getProduct (set_products db0 [prod_doc; prod_doc]) "prod_1") = true.
Proof. reflexivity. Qed.

(** A Stripe account with one subscription [sub_1] of one item [si_1]. *)
Definition stripe_stub : Stripe.Api unit :=
  Stripe.mkApi unit
    (fun _ _ sid => Ok (Stripe.mkSubscription sid [Stripe.mkItem "si_1"]))
    (fun _ r _ _ => Ok r).

Definition setQuantity (sid : string) (qty : Z) : M unit :=
  ret tt.

Example updateSubscriptionQuantity_run :
  log (snd (updateSubscriptionQuantity stripe_stub setQuantity "sub_1" 3
              (mkWorld (Some "sk_test_123") tt db0 []))) =
  [RemoteRetrieve "sub_1"; RemoteItemUpdate "si_1" 3; LocalMutation "sub_1" 3].
Proof. reflexivity. Qed.

(** * Witnesses *)

Lemma updateSubscriptionQuantity_remote_first_witness :
  is_err (fst (updateSubscriptionQuantity stripe_stub setQuantity "sub_1" 3
                 (mkWorld None tt db0 []))) = true /\
  local (snd (updateSubscriptionQuantity stripe_stub setQuantity "sub_1" 3
                (mkWorld None tt db0 []))) = db0.
Proof.
  pose proof (updateSubscriptionQuantity_remote_first stripe_stub setQuantity
                None tt db0 "sub_1" 3) as H.
  simpl in H. destruct H as [H1 _].
  destruct (H1 (or_introl eq_refl)) as [A [B _]]. split; assumption.
Defined.

Lemma updateSubscriptionMetadata_known_id_witness :
  runMutation (updateSubscriptionMetadata "sub_9" JNull None None) db0 =
  (Err "Subscription sub_9 not found in database", db0) /\
  exists s', runMutation (updateSubscriptionMetadata "sub_1" JNull None None) db0 =
             (Ok tt, s').
Proof.
  destruct (updateSubscriptionMetadata_known_id db0 "sub_9" JNull None None)
    as [H1 _].
  destruct (updateSubscriptionMetadata_known_id db0 "sub_1" JNull None None)
    as [_ H2].
  split.
  - apply H1. intros d [<-|[]]. simpl. discriminate.
  - apply (H2 sub_doc). reflexivity.
Defined.

Lemma createOrUpdateCustomer_idempotent_upsert_witness :
  keyed Customer.stripeCustomerId (customers db0) /\
  fresh_ids db0 (customers db0) /\
  exists s', runMutation (createOrUpdateCustomer "cus_1" None (Some "Ann") None) db0 =
             (Ok "cus_1", s').
Proof.
  assert (Hk : keyed Customer.stripeCustomerId (customers db0)).
  { constructor; [intros []|constructor]. }
  assert (Hf : fresh_ids db0 (customers db0)).
  { constructor; [simpl; lia|constructor]. }
  split; [exact Hk|split; [exact Hf|]].
  destruct (createOrUpdateCustomer_idempotent_upsert db0 "cus_1" None (Some "Ann")
              None Hk Hf) as [s' [H _]].
  exists s'. exact H.
Defined.

Lemma updateSubscriptionMetadata_frame_witness :
  withIndex (sub_key "sub_1") (subscriptions db0) = [sub_doc] /\
  fst (runMutation (updateSubscriptionMetadata "sub_1" JNull None None) db0) = Ok tt.
Proof.
  split; [reflexivity|].
  rewrite (updateSubscriptionMetadata_frame db0 "sub_1" JNull None None sub_doc);
    reflexivity.
Defined.

Lemma createCheckoutSession_rejects_promo_with_discounts_witness :
  fst (createCheckoutSession (fun _ r _ => Ok (r, ("cs_1", "https://checkout")))
         (mkCheckoutSessionArgs "price_123" "payment" "https://example.com/success"
            "https://example.com/cancel" (Some true)
            (Some [mkDiscount (Some "coupon_123") None]))
         (mkWorld (Some "sk_test_123") tt db0 [])) =
  Err "Cannot use both allowPromotionCodes and discounts".
Proof.
  rewrite (createCheckoutSession_rejects_promo_with_discounts _ _
             [mkDiscount (Some "coupon_123") None]); reflexivity.
Defined.

Lemma product_deleted_is_soft_delete_witness :
  withIndex (prod_key "prod_1") (products db0) = [prod_doc] /\
  exists s', runMutation (handleProductDeleted "prod_1") db0 = (Ok tt, s').
Proof.
  split; [reflexivity|].
  destruct (product_deleted_is_soft_delete db0 "prod_1" prod_doc eq_refl)
    as [s' [H _]].
  exists s'. exact H.
Defined.

Lemma getProductWithPrices_null_iff_absent_witness :
  keyed Product.stripeProductId (products db0) /\
  getProductWithPrices db0 "prod_1" =
    Ok (Some (mkProductWithPrices (strip prod_doc) (listPricesByProduct db0 "prod_1"))).
Proof.
  assert (Hk : keyed Product.stripeProductId (products db0)).
  { constructor; [intros []|constructor]. }
  split; [exact Hk|].
  destruct (getProductWithPrices_null_iff_absent db0 "prod_1" Hk) as [_ [H _]].
  apply H; [now left | reflexivity].
Defined.

Lemma createOrUpdateCustomer_overwrites_exactly_witness :
  withIndex (cust_key "cus_1") (customers db0) = [cus_doc] /\
  exists s', runMutation (createOrUpdateCustomer "cus_1" None None None) db0 =
               (Ok "cus_1", s') /\
             getCustomer s' "cus_1" = Ok (Some (Customer.mk "cus_1" None None None)).
Proof.
  split; [reflexivity|].
  apply (createOrUpdateCustomer_overwrites_exactly db0 "cus_1" None None None cus_doc).
  reflexivity.
Defined.

Lemma db0_customers_wf :
  keyed Customer.stripeCustomerId (customers db0) /\
  fresh_ids db0 (customers db0) /\ distinct_ids (customers db0).
Proof.
  split; [constructor; [intros []|constructor]|].
  split; [constructor; [simpl; lia|constructor]|].
  constructor; [intros []|constructor].
Qed.

Lemma createOrUpdateCustomer_preserves_invariants_witness :
  keyed Customer.stripeCustomerId
    (customers (snd (runMutation (createOrUpdateCustomer "cus_2" None None None) db0))).
Proof.
  destruct db0_customers_wf as [Hk [Hf Hd]].
  destruct (createOrUpdateCustomer_preserves_invariants db0 "cus_2" None None None
              Hk Hf Hd) as [H _].
  exact H.
Defined.

Lemma createOrUpdateCustomer_getCustomer_witness :
  getCustomer (snd (runMutation (createOrUpdateCustomer "cus_2" None None None) db0))
    "cus_2" = Ok (Some (Customer.mk "cus_2" None None None)).
Proof.
  destruct db0_customers_wf as [Hk [Hf Hd]].
  destruct (createOrUpdateCustomer_getCustomer db0 "cus_2" None None None Hk Hf Hd)
    as [H _].
  exact H.
Defined.

Lemma updateSubscriptionMetadata_lookups_witness :
  withIndex (sub_key "sub_1") (subscriptions db0) = [sub_doc] /\
  getSubscriptionByOrgId
    (snd (runMutation (updateSubscriptionMetadata "sub_1" JNull (Some "org_2") None) db0))
    "org_2" <> None.
Proof.
  split; [reflexivity|].
  destruct (updateSubscriptionMetadata_lookups db0 "sub_1" JNull (Some "org_2") None
              sub_doc eq_refl) as [_ [_ [H _]]].
  apply H. reflexivity.
Defined.

Definition failingQuantityWrite (sid : string) (qty : Z) : M unit :=
  throw ("Subscription " ++ sid ++ " not found in database").

Lemma updateSubscriptionQuantity_after_remote_update_witness :
  updateSubscriptionQuantity stripe_stub failingQuantityWrite "sub_9" 3
    (mkWorld (Some "sk_test_123") tt db0 []) =
  (Err "Subscription sub_9 not found in database",
   mkWorld (Some "sk_test_123") tt db0
     [RemoteRetrieve "sub_9"; RemoteItemUpdate "si_1" 3; LocalMutation "sub_9" 3]).
Proof.
  rewrite (updateSubscriptionQuantity_after_remote_update stripe_stub
             failingQuantityWrite "sk_test_123" tt tt db0 "sub_9" 3
             (Stripe.mkSubscription "sub_9" [Stripe.mkItem "si_1"])
             (Stripe.mkItem "si_1") []);
    [reflexivity | discriminate | reflexivity | reflexivity | reflexivity].
Defined.
